(** * AlphaPortfolio: the dynamic form builder and the active link

    A shallow embedding of
    - [src/components/ui/forms/FormBuilder.tsx] (value and error state of a
      schema-driven form, field changes, submission, reset), and
    - [src/components/ui/nav/ActiveLink.tsx] (the active-link decision),
    together with the properties their specification states about them.

    Objects used as dictionaries ([Record<string, unknown>]) are finite maps
    of their own enumerable properties; the members a plain object inherits
    from [Object.prototype] are outside the model.  React state is threaded
    explicitly: a handler is a function of the state of the hooks that also
    records the calls it makes to the caller's callbacks. *)

From Stdlib Require Import ZArith String Ascii.
From stdpp Require Import base gmap strings list.

Local Open Scope string_scope.
Set Warnings "-register-all".

(** ** JavaScript values *)

Module JS.

(** A [number]; the form only stores and compares numbers, it never
    computes with them. *)
Inductive number : Type :=
| NaN
| Infinity (negative : bool)
| Finite (mantissa exponent : Z).

Definition zero : number := Finite 0 0.

(** The values an [unknown] slot of the form can hold. *)
Inductive value : Type :=
| Undefined
| Null
| Bool (b : bool)
| Num (n : number)
| Str (s : string)
| Arr (items : list value).

(** [o[k]]: reading a missing property gives [undefined]. *)
Definition get (o : gmap string value) (k : string) : value :=
  default Undefined (o !! k).

(** [k in o]. *)
Definition has (k : string) (o : gmap string value) : bool :=
  bool_decide (is_Some (o !! k)).

(** [{ ...o, ...over }]: the properties of [over] win. *)
Definition spread {V} (o over : gmap string V) : gmap string V := over ∪ o.

(** [Object.keys(o).length]. *)
Definition keys_length {V} (o : gmap string V) : nat := size o.

(** [s.startsWith(t)], position 0. *)
Fixpoint startsWith (s t : string) {struct t} : bool :=
  match t, s with
  | EmptyString, _ => true
  | String _ _, EmptyString => false
  | String c t', String d s' => if Ascii.eqb c d then startsWith s' t' else false
  end.

(** Truthiness of a string: only the empty string is falsy. *)
Definition truthy_string (s : string) : bool :=
  match s with EmptyString => false | String _ _ => true end.

End JS.

(** ** types/: field descriptors *)

Record SelectOption : Type := { opt_label : string; opt_value : string }.

(** [BaseField<T>] without its [type] tag, which the variants carry. *)
Record BaseField : Type := {
  name : string;
  label : string;
  placeholder : option string;
  disabled : option bool;
  required : option bool;
  description : option string;
  id : option string;
  visibleIf : option (gmap string JS.value → bool)
}.

Inductive TextType : Type := text | email | password | textarea.

(** Modelled from the spec: [CheckboxField] is imported from
    [./CheckboxField], which is not among the sources; the spec gives the
    variant a boolean value and no attribute of its own, so it is
    [BaseField<'checkbox'>]. *)
Inductive FormField : Type :=
| TextField (type : TextType) (base : BaseField) (maxLength : option JS.number)
| NumberField (base : BaseField) (min max step : option JS.number)
| CheckboxField (base : BaseField)
| SelectField (base : BaseField) (options : list SelectOption)
              (placeholderOption : option string)
| MultiSelectField (base : BaseField) (options : list SelectOption).

Definition base (f : FormField) : BaseField :=
  match f with
  | TextField _ b _ | NumberField b _ _ _ | CheckboxField b
  | SelectField b _ _ | MultiSelectField b _ => b
  end.

Coercion base : FormField >-> BaseField.

(** The discriminant [field.type]. *)
Inductive FieldType : Type :=
| t_text | t_email | t_password | t_textarea
| t_number | t_checkbox | t_select | t_multiselect.

Definition type (f : FormField) : FieldType :=
  match f with
  | TextField text _ _ => t_text
  | TextField email _ _ => t_email
  | TextField password _ _ => t_password
  | TextField textarea _ _ => t_textarea
  | NumberField _ _ _ _ => t_number
  | CheckboxField _ => t_checkbox
  | SelectField _ _ _ => t_select
  | MultiSelectField _ _ => t_multiselect
  end.

Definition names (fields : list FormField) : list string :=
  map (λ f : FormField, name f) fields.

(** ** nav/ActiveLink.tsx *)

(** [usePathname()] gives a string or [null]. *)
Definition isActive (pathname : option string) (href : string) (exact : bool) : bool :=
  match pathname with
  | None => false
  | Some p =>
      if negb (JS.truthy_string p) then false
      else if exact then String.eqb p href else JS.startsWith p href
  end.

(** ** forms/FormBuilder.tsx *)

(** [defaultFor]; the [default:] arm of the switch answers [''] as the text
    variants do, and no tag of the closed union reaches it. *)
Definition defaultFor (field : FormField) : JS.value :=
  match type field with
  | t_checkbox => JS.Bool false
  | t_multiselect => JS.Arr []
  | t_select => JS.Str ""
  | t_number => JS.Str ""
  | t_textarea | t_text | t_email | t_password => JS.Str ""
  end.

Record Props : Type := {
  fields : list FormField;
  initialValues : gmap string JS.value;
  loading : bool;
  resetOnSubmit : bool;
  validate : option (gmap string JS.value → option (gmap string string))
}.

(** The calls a handler makes to the functions its caller supplied. *)
Inductive Call : Type :=
| call_validate (data : gmap string JS.value)
| call_onSubmit (data : gmap string JS.value).

(** What the async function given to [startTransition] still has to do once
    [onSubmit] settles; it closes over the [resetOnSubmit] and [doReset]
    (hence the [fields]) of the render that submitted. *)
Record Continuation : Type := {
  k_resetOnSubmit : bool;
  k_fields : list FormField
}.

(** The state of the hooks: the two [useState] cells and the actions of
    [useTransition] that have not settled yet. *)
Record FormState : Type := {
  formValues : gmap string JS.value;
  errors : gmap string string;
  inflight : list Continuation
}.

(** [isPending] of [useTransition]: some async action is still running. *)
Definition isPending (st : FormState) : bool :=
  match inflight st with [] => false | _ :: _ => true end.

(** A handler reads and updates the state and records its calls. *)
Definition Handler (A : Type) : Type := FormState → A * FormState * list Call.

#[global] Instance Handler_ret : MRet Handler := λ A a st, (a, st, []).

#[global] Instance Handler_bind : MBind Handler :=
  λ A B k m st,
    let '(a, st1, c1) := m st in
    let '(b, st2, c2) := k a st1 in
    (b, st2, (c1 ++ c2)%list).

Definition setFormValues (upd : gmap string JS.value → gmap string JS.value)
  : Handler unit :=
  λ st, (tt, {| formValues := upd (formValues st); errors := errors st;
                inflight := inflight st |}, []).

Definition setErrors (upd : gmap string string → gmap string string)
  : Handler unit :=
  λ st, (tt, {| formValues := formValues st; errors := upd (errors st);
                inflight := inflight st |}, []).

Definition invoke_validate
    (v : gmap string JS.value → option (gmap string string))
    (data : gmap string JS.value) : Handler (option (gmap string string)) :=
  λ st, (v data, st, [call_validate data]).

(** [startTransition(async () => { await onSubmit(data); ... })]: the
    function runs up to its [await], so [onSubmit] is called now and the rest
    waits for it to settle. *)
Definition startTransition (data : gmap string JS.value) (k : Continuation)
  : Handler unit :=
  λ st, (tt, {| formValues := formValues st; errors := errors st;
                inflight := (inflight st ++ [k])%list |}, [call_onSubmit data]).

Definition exec {A} (m : Handler A) (st : FormState) : FormState := (m st).1.2.
Definition calls {A} (m : Handler A) (st : FormState) : list Call := (m st).2.

(** [initialComputed], the seed of [useState]. *)
Definition initialComputed (fields : list FormField)
    (initialValues : gmap string JS.value) : gmap string JS.value :=
  foldl (λ seed (f : FormField),
           <[name f := if JS.has (name f) initialValues
                       then JS.get initialValues (name f)
                       else defaultFor f]> seed)
        ∅ fields.

(** The updater of the effect on [fields]. *)
Definition syncFields (fields : list FormField) (prev : gmap string JS.value)
  : gmap string JS.value :=
  foldl (λ next (f : FormField),
           <[name f := if JS.has (name f) prev
                       then JS.get prev (name f)
                       else defaultFor f]> next)
        ∅ fields.

(** The effect on [initialValues]. *)
Definition syncInitialValues (initialValues : gmap string JS.value)
  : Handler unit :=
  if negb (Nat.eqb (JS.keys_length initialValues) 0)
  then setFormValues (λ prev, JS.spread prev initialValues)
  else mret tt.

(** The DOM elements a change event can come from, with the properties
    [handleFieldChange] reads. *)
Inductive Target : Type :=
| HTMLInputElement (input_type : string) (target_name value : string)
                   (checked : bool) (valueAsNumber : JS.number)
| HTMLTextAreaElement (target_name value : string)
| HTMLSelectElement (target_name value : string) (multiple : bool)
                    (selectedOptions : list string).

Definition target_name (t : Target) : string :=
  match t with
  | HTMLInputElement _ n _ _ _ | HTMLTextAreaElement n _
  | HTMLSelectElement n _ _ _ => n
  end.

Definition target_value (t : Target) : string :=
  match t with
  | HTMLInputElement _ _ v _ _ | HTMLTextAreaElement _ v
  | HTMLSelectElement _ v _ _ => v
  end.

(** The value [handleFieldChange] reads off a DOM target: [target.value]
    unless one of the three special cases applies. *)
Definition coerce (target : Target) : JS.value :=
  let value := JS.Str (target_value target) in
  match target with
  | HTMLInputElement ty _ v checked valueAsNumber =>
      if String.eqb ty "checkbox" then JS.Bool checked
      else if String.eqb ty "number"
           then (if String.eqb v "" then JS.Str "" else JS.Num valueAsNumber)
           else value
  | HTMLSelectElement _ _ true selectedOptions =>
      JS.Arr (map JS.Str selectedOptions)
  | HTMLSelectElement _ _ false _ | HTMLTextAreaElement _ _ => value
  end.

(** The two shapes of the argument of [handleFieldChange]. *)
Inductive ChangeArg : Type :=
| ChangeEvent (target : Target)
| NameValue (eOrName : string) (maybeValue : JS.value).

Definition handleFieldChange (arg : ChangeArg) : Handler unit :=
  match arg with
  | NameValue name value =>
      setFormValues (λ prev, <[name := value]> prev) ;;
      setErrors (λ prev, <[name := ""]> prev)
  | ChangeEvent target =>
      let name := target_name target in
      let value := coerce target in
      setFormValues (λ prev, <[name := value]> prev) ;;
      setErrors (λ prev, <[name := ""]> prev)
  end.

Definition doReset (fields : list FormField) : Handler unit :=
  let reset := foldl (λ reset (f : FormField), <[name f := defaultFor f]> reset)
                     ∅ fields in
  setFormValues (λ _, reset) ;;
  setErrors (λ _, ∅).

(** [!f.visibleIf || f.visibleIf(formValues)]. *)
Definition visible (f : FormField) (formValues : gmap string JS.value) : bool :=
  match visibleIf f with
  | None => true
  | Some p => p formValues
  end.

Definition visibleValues (fields : list FormField)
    (formValues : gmap string JS.value) : gmap string JS.value :=
  foldl (λ acc (f : FormField),
           if visible f formValues
           then <[name f := JS.get formValues (name f)]> acc
           else acc)
        ∅ fields.

(** [handleSubmit]: [fields], [formValues], [validate], [resetOnSubmit] and
    [doReset] are those of the render whose closure it is. *)
Definition handleSubmit (p : Props) (formValues : gmap string JS.value)
  : Handler unit :=
  let data := visibleValues (fields p) formValues in
  let submit :=
    startTransition data {| k_resetOnSubmit := resetOnSubmit p;
                            k_fields := fields p |} in
  match validate p with
  | Some v =>
      r ← invoke_validate v data ;
      let nextErrors := default ∅ r in
      setErrors (λ _, nextErrors) ;;
      if Nat.ltb 0 (JS.keys_length nextErrors) then mret tt else submit
  | None => submit
  end.

(** The [i]-th pending [onSubmit] settles: its action leaves [inflight]. *)
Definition take_inflight (i : nat) : Handler (option Continuation) :=
  λ st, (inflight st !! i,
         {| formValues := formValues st; errors := errors st;
            inflight := delete i (inflight st) |}, []).

(** The rest of the async function, run when that [onSubmit] settles: a
    rejection makes the [await] throw, which skips the reset. *)
Definition settle (i : nat) (fulfilled : bool) : Handler unit :=
  k ← take_inflight i ;
  match k with
  | Some k => if fulfilled && k_resetOnSubmit k then doReset (k_fields k)
              else mret tt
  | None => mret tt
  end.

(** [disabled] of the submit button. *)
Definition submitDisabled (p : Props) (st : FormState) : bool :=
  loading p || isPending st.

(** Whether the render shows an error for a field: [errors[field.name]] is
    truthy (drives [aria-invalid] and the inline message). *)
Definition showsError (st : FormState) (k : string) : bool :=
  match errors st !! k with
  | Some message => JS.truthy_string message
  | None => false
  end.

(** [disabled] of the control of a field. *)
Definition fieldDisabled (p : Props) (st : FormState) (f : FormField) : bool :=
  default false (disabled f) || loading p || isPending st.

(** ** The component as a transition system *)

Record Component : Type := { props : Props; hooks : FormState }.

(** The first render seeds the state; then both effects run, in order. *)
Definition mount (p : Props) : Component :=
  let st0 := {| formValues := initialComputed (fields p) (initialValues p);
                errors := ∅; inflight := [] |} in
  {| props := p;
     hooks := exec (setFormValues (syncFields (fields p)) ;;
                    syncInitialValues (initialValues p)) st0 |}.

Definition with_fields (p : Props) (fs : list FormField) : Props :=
  {| fields := fs; initialValues := initialValues p; loading := loading p;
     resetOnSubmit := resetOnSubmit p; validate := validate p |}.

Definition with_initialValues (p : Props) (iv : gmap string JS.value) : Props :=
  {| fields := fields p; initialValues := iv; loading := loading p;
     resetOnSubmit := resetOnSubmit p; validate := validate p |}.

Definition with_loading (p : Props) (b : bool) : Props :=
  {| fields := fields p; initialValues := initialValues p; loading := b;
     resetOnSubmit := resetOnSubmit p; validate := validate p |}.

(** What can happen to a mounted form.  A submit event reaches
    [handleSubmit] only through the submit button, so only while the button
    is not disabled. *)
Inductive step : Component → list Call → Component → Prop :=
| step_change c arg :
    step c (calls (handleFieldChange arg) (hooks c))
         {| props := props c; hooks := exec (handleFieldChange arg) (hooks c) |}
| step_submit c :
    submitDisabled (props c) (hooks c) = false →
    step c (calls (handleSubmit (props c) (formValues (hooks c))) (hooks c))
         {| props := props c;
            hooks := exec (handleSubmit (props c) (formValues (hooks c))) (hooks c) |}
| step_settle c i fulfilled :
    (i < length (inflight (hooks c)))%nat →
    step c [] {| props := props c; hooks := exec (settle i fulfilled) (hooks c) |}
| step_fields c fs :
    step c [] {| props := with_fields (props c) fs;
                 hooks := exec (setFormValues (syncFields fs)) (hooks c) |}
| step_initialValues c iv :
    step c [] {| props := with_initialValues (props c) iv;
                 hooks := exec (syncInitialValues iv) (hooks c) |}
| step_loading c b :
    step c [] {| props := with_loading (props c) b; hooks := hooks c |}.


(** ** Reading the argument of a field change *)

(** The field a change names, and the value it carries, for both shapes. *)
Definition arg_name (arg : ChangeArg) : string :=
  match arg with
  | ChangeEvent target => target_name target
  | NameValue n _ => n
  end.

Definition arg_value (arg : ChangeArg) : JS.value :=
  match arg with
  | ChangeEvent target => coerce target
  | NameValue _ v => v
  end.

Definition call_data (c : Call) : gmap string JS.value :=
  match c with call_validate d | call_onSubmit d => d end.

Definition is_onSubmit (c : Call) : bool :=
  match c with call_onSubmit _ => true | call_validate _ => false end.

(** The loops of the builder all walk the schema and assign to the property
    a field names; [h] says which value, if any, a field contributes. *)
Definition assign_each (h : FormField → option JS.value)
    (fields : list FormField) (acc : gmap string JS.value)
  : gmap string JS.value :=
  foldl (λ acc (f : FormField),
           match h f with Some v => <[name f := v]> acc | None => acc end)
        acc fields.

(** ** A sample form

    The schema of the specification's scenarios: a text field [name], a
    checkbox [subscribe], and a select [plan] shown only while [subscribe]
    is checked. *)

Definition mkBase (n l : string)
    (vis : option (gmap string JS.value → bool)) : BaseField :=
  {| name := n; label := l; placeholder := None; disabled := None;
     required := None; description := None; id := None; visibleIf := vis |}.

Definition subscribed (values : gmap string JS.value) : bool :=
  match values !! "subscribe" with
  | Some (JS.Bool true) => true
  | _ => false
  end.

Definition f_name : FormField :=
  TextField text
    {| name := "name"; label := "Name"; placeholder := None; disabled := None;
       required := Some true; description := None; id := None;
       visibleIf := None |}
    None.

Definition f_subscribe : FormField :=
  CheckboxField (mkBase "subscribe" "Subscribe" None).

Definition f_plan : FormField :=
  SelectField (mkBase "plan" "Plan" (Some subscribed))
    [ {| opt_label := "Free"; opt_value := "free" |};
      {| opt_label := "Pro"; opt_value := "pro" |} ]
    (Some "Select...").

Definition sample_fields : list FormField := [f_name; f_subscribe; f_plan].

(** A validator that wants a non-empty [name]. *)
Definition sample_validate (data : gmap string JS.value)
  : option (gmap string string) :=
  match data !! "name" with
  | Some (JS.Str (String _ _)) => None
  | _ => Some {[ "name" := "Name is required" ]}
  end.

Definition sample_props : Props :=
  {| fields := sample_fields; initialValues := ∅; loading := false;
     resetOnSubmit := true; validate := Some sample_validate |}.

(** The user typed a name and, earlier, picked a plan while subscribed. *)
Definition sample_values : gmap string JS.value :=
  <["name" := JS.Str "Ada"]>
    (<["subscribe" := JS.Bool false]> {[ "plan" := JS.Str "pro" ]}).

Definition sample_state : FormState :=
  {| formValues := sample_values; errors := ∅; inflight := [] |}.

(** ** forms/FormBuilder.tsx: the render *)

(** Truthiness of a value: [!!v], and the left operand of [v || d]. *)
Definition truthy (v : JS.value) : bool :=
  match v with
  | JS.Undefined | JS.Null => false
  | JS.Bool b => b
  | JS.Num JS.NaN => false
  | JS.Num (JS.Infinity _) => true
  | JS.Num (JS.Finite m _) => negb (Z.eqb m 0)
  | JS.Str s => JS.truthy_string s
  | JS.Arr _ => true
  end.

(** Truthiness of an optional string ([undefined] is falsy). *)
Definition truthy_opt (o : option string) : bool :=
  match o with Some s => JS.truthy_string s | None => false end.

(** [field.visibleIf ? field.visibleIf(formValues) : true]. *)
Definition isVisible (field : FormField) (formValues : gmap string JS.value)
  : bool :=
  match visibleIf field with
  | Some p => p formValues
  | None => true
  end.

(** [field.id ?? `field_${field.name}`]: only a missing id is replaced. *)
Definition control_id (field : FormField) : string :=
  match id field with
  | Some i => i
  | None => "field_" +:+ name field
  end.

(** [commonProps], but for [onChange], which is always [handleFieldChange]. *)
Record CommonProps : Type := {
  cp_id : string;
  cp_name : string;
  cp_required : option bool;
  cp_disabled : bool;
  cp_aria_invalid : option bool;
  cp_aria_describedby : option string
}.

(** The input element of a field; an [<option>] is a (value, label) pair. *)
Inductive Control : Type :=
| textarea_control (common : CommonProps) (value : JS.value)
                   (placeholder : option string)
| checkbox_control (id name : string) (checked disabled : bool)
| select_control (common : CommonProps) (value : JS.value)
                 (options : list (string * string))
| multiselect_control (id name : string) (value : JS.value) (disabled : bool)
                      (options : list (string * string))
| number_control (common : CommonProps) (value : JS.value)
                 (placeholder : option string)
| input_control (common : CommonProps) (type : TextType) (value : JS.value)
                (placeholder : option string) (autoComplete : option string).

(** One entry of [fields.map(...)]: the wrapping [div] with its key, the
    label, the control, and the two optional paragraphs, each with its id and
    its text. *)
Record FieldView : Type := {
  view_key : string;
  view_htmlFor : string;
  view_label : string;
  view_control : Control;
  view_description : option (string * string);
  view_error : option (string * string)
}.

Definition option_elements (options : list SelectOption)
  : list (string * string) :=
  map (λ o, (opt_value o, opt_label o)) options.

(** The body of the callback of [fields.map]; [None] is its [return null]. *)
Definition renderField (p : Props) (st : FormState) (field : FormField)
  : option FieldView :=
  if negb (isVisible field (formValues st)) then None
  else
    let id := control_id field in
    let error := errors st !! name field in
    let value := JS.get (formValues st) (name field) in
    let is_disabled := default false (disabled field) || loading p || isPending st in
    let commonProps :=
      {| cp_id := id;
         cp_name := name field;
         cp_required := required field;
         cp_disabled := is_disabled;
         cp_aria_invalid := if truthy_opt error then Some true else None;
         cp_aria_describedby :=
           if truthy_opt error then Some (id +:+ "-error")
           else if truthy_opt (description field) then Some (id +:+ "-desc")
           else None |} in
    let control :=
      match field with
      | TextField textarea _ _ =>
          textarea_control commonProps value (placeholder field)
      | CheckboxField _ =>
          checkbox_control id (name field)
            (truthy (JS.get (formValues st) (name field))) is_disabled
      | SelectField _ options placeholderOption =>
          select_control commonProps value
            ((if truthy_opt placeholderOption
              then [("", default "" placeholderOption)] else [])
             ++ option_elements options)%list
      | MultiSelectField _ options =>
          multiselect_control id (name field)
            (if truthy (JS.get (formValues st) (name field))
             then JS.get (formValues st) (name field) else JS.Arr [])
            is_disabled (option_elements options)
      | NumberField _ _ _ _ =>
          number_control commonProps value (placeholder field)
      | TextField ty _ _ =>
          input_control commonProps ty value (placeholder field)
            (match ty with password => Some "new-password" | _ => None end)
      end in
    Some {| view_key := name field;
            view_htmlFor := id;
            view_label := label field;
            view_control := control;
            view_description :=
              if truthy_opt (description field)
              then Some (id +:+ "-desc", default "" (description field))
              else None;
            view_error :=
              if truthy_opt error
              then Some (id +:+ "-error", default "" error)
              else None |}.

(** [fields.map(...)]; React leaves a [null] child out. *)
Definition renderFields (p : Props) (st : FormState) : list FieldView :=
  omap (renderField p st) (fields p).

Record ButtonView : Type := { button_disabled : bool; button_text : string }.

Definition renderButton (p : Props) (st : FormState) (submitButtonText : string)
  : ButtonView :=
  {| button_disabled := loading p || isPending st;
     button_text := if loading p || isPending st then "Submitting…"
                    else submitButtonText |}.

Definition control_common (c : Control) : option CommonProps :=
  match c with
  | textarea_control cp _ _ | select_control cp _ _ | number_control cp _ _
  | input_control cp _ _ _ _ => Some cp
  | checkbox_control _ _ _ _ | multiselect_control _ _ _ _ _ => None
  end.

Definition control_dom_id (c : Control) : string :=
  match c with
  | textarea_control cp _ _ | select_control cp _ _ | number_control cp _ _
  | input_control cp _ _ _ _ => cp_id cp
  | checkbox_control i _ _ _ | multiselect_control i _ _ _ _ => i
  end.

Definition control_name (c : Control) : string :=
  match c with
  | textarea_control cp _ _ | select_control cp _ _ | number_control cp _ _
  | input_control cp _ _ _ _ => cp_name cp
  | checkbox_control _ n _ _ | multiselect_control _ n _ _ _ => n
  end.

Definition control_disabled (c : Control) : bool :=
  match c with
  | textarea_control cp _ _ | select_control cp _ _ | number_control cp _ _
  | input_control cp _ _ _ _ => cp_disabled cp
  | checkbox_control _ _ _ d | multiselect_control _ _ _ d _ => d
  end.

(** What the control shows: its [value], or its [checked] state. *)
Definition control_value (c : Control) : JS.value :=
  match c with
  | textarea_control _ v _ | select_control _ v _ | number_control _ v _
  | input_control _ _ v _ _ | multiselect_control _ _ v _ _ => v
  | checkbox_control _ _ b _ => JS.Bool b
  end.

Definition type_attribute (ty : TextType) : string :=
  match ty with
  | text => "text" | email => "email" | password => "password"
  | textarea => "textarea"
  end.

(** The target of a change event fired on a control is that very element:
    it has the control's tag, [type], [multiple] and [name]; what the user
    entered is free. *)
Definition from_control (c : Control) (t : Target) : Prop :=
  match c, t with
  | textarea_control cp _ _, HTMLTextAreaElement n _ => n = cp_name cp
  | checkbox_control _ name _ _, HTMLInputElement ty n _ _ _ =>
      ty = "checkbox" ∧ n = name
  | select_control cp _ _, HTMLSelectElement n _ multiple _ =>
      multiple = false ∧ n = cp_name cp
  | multiselect_control _ name _ _ _, HTMLSelectElement n _ multiple _ =>
      multiple = true ∧ n = name
  | number_control cp _ _, HTMLInputElement ty n _ _ _ =>
      ty = "number" ∧ n = cp_name cp
  | input_control cp ty' _ _ _, HTMLInputElement ty n _ _ _ =>
      ty = type_attribute ty' ∧ n = cp_name cp
  | _, _ => False
  end.

(** The kind of value a variant's control works with. *)
Definition has_shape (f : FormField) (v : JS.value) : Prop :=
  match type f with
  | t_checkbox => ∃ b, v = JS.Bool b
  | t_multiselect => ∃ l : list string, v = JS.Arr (map JS.Str l)
  | t_number => v = JS.Str "" ∨ ∃ n, v = JS.Num n
  | t_select | t_text | t_email | t_password | t_textarea => ∃ s, v = JS.Str s
  end.

(** ** nav/ActiveLink.tsx and the navigation bar: what is rendered *)

(** [clsx] on arguments that are strings or falsy ([None]): the truthy ones,
    separated by single spaces. *)
Fixpoint clsx (args : list (option string)) : string :=
  match args with
  | [] => ""
  | arg :: rest =>
      if truthy_opt arg
      then match clsx rest with
           | "" => default "" arg
           | more => default "" arg +:+ " " +:+ more
           end
      else clsx rest
  end.

Record LinkView : Type := { link_href : string; link_className : string }.

(** The [<Link>] an [ActiveLink] renders; [isActive && activeClassName]. *)
Definition ActiveLink (pathname : option string) (href : string) (exact : bool)
    (className activeClassName : option string) : LinkView :=
  {| link_href := href;
     link_className :=
       clsx [className;
             if isActive pathname href exact then activeClassName else None] |}.

Record NavItem : Type := { nav_label : string; nav_href : string }.

Definition NAV_ITEMS : list NavItem :=
  [ {| nav_label := "Home"; nav_href := "/" |};
    {| nav_label := "Login"; nav_href := "/login" |};
    {| nav_label := "Register"; nav_href := "/register" |} ].

(** The links of the bar (the mobile menu maps [NAV_ITEMS] the same way):
    [exact], and neither [className] nor [activeClassName]. *)
Definition NavBar (pathname : option string) : list LinkView :=
  map (λ item, ActiveLink pathname (nav_href item) true None None) NAV_ITEMS.



(** * Properties *)

(** ** Strings *)

Lemma startsWith_append (t s : string) : JS.startsWith (t +:+ s) t = true.
Proof.
  induction t as [|c t IH]; simpl; [done|].
  by rewrite Ascii.eqb_refl.
Qed.

Lemma startsWith_inv (s t : string) :
  JS.startsWith s t = true → ∃ r, s = t +:+ r.
Proof.
  revert s. induction t as [|c t IH]; intros s H.
  - by exists s.
  - destruct s as [|d s]; simpl in H; [done|].
    destruct (Ascii.eqb_spec c d) as [->|]; [|discriminate].
    destruct (IH _ H) as [r ->]. by exists r.
Qed.

Lemma startsWith_spec (s t : string) :
  JS.startsWith s t = true ↔ ∃ r, s = t +:+ r.
Proof.
  split; [apply startsWith_inv|].
  intros [r ->]. apply startsWith_append.
Qed.

Lemma truthy_string_spec (s : string) : JS.truthy_string s = true ↔ s ≠ "".
Proof. by destruct s. Qed.

(** ** Schema loops *)

Section loops.
Context (h : FormField → option JS.value).

Lemma assign_each_cons f fs acc :
  assign_each h (f :: fs) acc
  = assign_each h fs (match h f with Some v => <[name f := v]> acc | None => acc end).
Proof. done. Qed.

(** A key no field names is left as it was. *)
Lemma assign_each_other fs acc (k : string) :
  k ∉ names fs → assign_each h fs acc !! k = acc !! k.
Proof.
  revert acc. induction fs as [|f fs IH]; intros acc Hk; [done|].
  rewrite assign_each_cons. cbn in Hk.
  apply not_elem_of_cons in Hk as [Hne Hk].
  rewrite IH by done.
  destruct (h f); [|done]. by rewrite lookup_insert_ne.
Qed.


(** Every key of the result was there before or is a field name. *)
Lemma assign_each_keys fs acc (k : string) :
  is_Some (assign_each h fs acc !! k) → is_Some (acc !! k) ∨ k ∈ names fs.
Proof.
  intros Hk. destruct (decide (k ∈ names fs)) as [|Hn]; [by right|].
  left. by rewrite assign_each_other in Hk.
Qed.
End loops.



Lemma visibleValues_assign fs vals :
  visibleValues fs vals
  = assign_each (λ f, if visible f vals then Some (JS.get vals (name f)) else None)
                fs ∅.
Proof.
  unfold visibleValues, assign_each. generalize (∅ : gmap string JS.value).
  induction fs as [|f fs IH]; intros acc; [done|].
  cbn. rewrite IH. by destruct (visible f vals).
Qed.


(** ** The active link *)

(** C8, as stated, fails: an empty current path is falsy, so the guard
    [!pathname] answers [false] although the empty path equals the empty
    target (and starts with it). *)
Lemma isActive_empty_path_counterexample :
  ¬ (isActive (Some "") "" true = true ↔ "" = "") ∧
  ¬ (isActive (Some "") "" false = true ↔ ∃ r, "" = "" +:+ r).
Proof.
  split; intros [_ H].
  - by specialize (H eq_refl).
  - by specialize (H (ex_intro _ "" eq_refl)).
Qed.

(** C8, amended: the link is active with [exact] iff the current path is not
    empty and equals the target, without [exact] iff the current path is not
    empty and starts with the target; with no current path ([null]) or an
    empty one it is never active. *)
Theorem isActive_spec (P T : string) :
  (isActive (Some P) T true = true ↔ P ≠ "" ∧ P = T) ∧
  (isActive (Some P) T false = true ↔ P ≠ "" ∧ ∃ r, P = T +:+ r) ∧
  (∀ exact, isActive None T exact = false) ∧
  (∀ exact, isActive (Some "") T exact = false).
Proof.
  repeat split; try done.
  - by destruct P.
  - destruct P; [done|]. cbn in H. by apply String.eqb_eq.
  - intros [HP ->]. destruct T as [|c T]; [done|].
    change (String.eqb (String c T) (String c T) = true). apply String.eqb_refl.
  - by destruct P.
  - destruct P; [done|]. by apply startsWith_inv.
  - intros [HP Hr]. destruct P as [|c P]; [done|].
    change (JS.startsWith (String c P) T = true). by apply startsWith_spec.
Qed.

(** ** Running handlers *)


Lemma exec_handleFieldChange arg st :
  exec (handleFieldChange arg) st
  = {| formValues := <[arg_name arg := arg_value arg]> (formValues st);
       errors := <[arg_name arg := ""]> (errors st);
       inflight := inflight st |}.
Proof. by destruct arg. Qed.


Lemma union_no_keys {V} (o m : gmap string V) : size o = 0 → o ∪ m = m.
Proof.
  intros E. apply map_size_empty_iff in E as ->. apply (left_id_L ∅ (∪)).
Qed.

Lemma exec_syncInitialValues iv st :
  formValues (exec (syncInitialValues iv) st) = iv ∪ formValues st.
Proof.
  unfold syncInitialValues, JS.keys_length.
  destruct (Nat.eqb_spec (size iv) 0) as [E|E]; cbn; [|done].
  by rewrite union_no_keys.
Qed.



(** ** Seeding the value map *)



(** ** Schema change *)



(** ** Field change *)

(** C5: a field change, whether it arrives as a DOM change event or as a
    (name, value) pair, stores the value under the field's name and sets that
    field's error to the empty message, so that no error shows for it; every
    other value and every other error entry is as before, and nothing else
    happens. *)
Theorem handleFieldChange_frame (arg : ChangeArg) (st : FormState) :
  let st' := exec (handleFieldChange arg) st in
  formValues st' !! arg_name arg = Some (arg_value arg) ∧
  errors st' !! arg_name arg = Some "" ∧
  showsError st' (arg_name arg) = false ∧
  (∀ k : string, k ≠ arg_name arg →
     formValues st' !! k = formValues st !! k ∧
     errors st' !! k = errors st !! k ∧
     showsError st' k = showsError st k) ∧
  inflight st' = inflight st ∧
  calls (handleFieldChange arg) st = [].
Proof.
  intros st'. unfold st', showsError. rewrite exec_handleFieldChange. cbn.
  rewrite !lookup_insert_eq.
  split; [done|]. split; [done|]. split; [done|]. split; [|split; [done|]].
  - intros k Hk. by rewrite !lookup_insert_ne.
  - by destruct arg.
Qed.

(** C6: a change event from an [<input type="number">] stores the empty
    string when the input's text is empty and the input's numeric value
    otherwise; the empty string it keeps is neither the number 0 nor NaN. *)
Theorem number_input_change (n v : string) (checked : bool)
    (valueAsNumber : JS.number) (st : FormState) :
  let target := HTMLInputElement "number" n v checked valueAsNumber in
  let st' := exec (handleFieldChange (ChangeEvent target)) st in
  (v = "" → formValues st' !! n = Some (JS.Str "")) ∧
  (v ≠ "" → formValues st' !! n = Some (JS.Num valueAsNumber)) ∧
  JS.Str "" ≠ JS.Num JS.zero ∧
  JS.Str "" ≠ JS.Num JS.NaN.
Proof.
  intros target st'. unfold st'. rewrite exec_handleFieldChange. cbn.
  rewrite !lookup_insert_eq.
  repeat split; try done.
  - by intros ->.
  - intros Hv. by destruct v.
Qed.

(** ** Submission *)

(** Unfolds the plumbing of a handler down to the state and calls it yields. *)
Ltac run_handler :=
  unfold mbind, mret, Handler_bind, Handler_ret, invoke_validate, setErrors,
    setFormValues, startTransition, take_inflight; cbn.

(** What one run of [handleSubmit] does, case by case. *)
Lemma handleSubmit_run (p : Props) (vals : gmap string JS.value) (st : FormState) :
  let data := visibleValues (fields p) vals in
  let k := {| k_resetOnSubmit := resetOnSubmit p; k_fields := fields p |} in
  handleSubmit p vals st
  = match validate p with
    | Some v =>
        let nextErrors := default ∅ (v data) in
        if Nat.ltb 0 (size nextErrors)
        then (tt, {| formValues := formValues st; errors := nextErrors;
                     inflight := inflight st |},
              [call_validate data])
        else (tt, {| formValues := formValues st; errors := nextErrors;
                     inflight := (inflight st ++ [k])%list |},
              [call_validate data; call_onSubmit data])
    | None =>
        (tt, {| formValues := formValues st; errors := errors st;
                inflight := (inflight st ++ [k])%list |},
         [call_onSubmit data])
    end.
Proof.
  intros data k. unfold handleSubmit. fold data.
  destruct (validate p) as [v|]; [|done].
  run_handler. unfold JS.keys_length.
  by destruct (size (default ∅ (v data))).
Qed.

(** Every call of a submit attempt carries the visible values. *)
Lemma handleSubmit_payload p vals st (c : Call) :
  c ∈ calls (handleSubmit p vals) st →
  call_data c = visibleValues (fields p) vals.
Proof.
  unfold calls. rewrite handleSubmit_run.
  destruct (validate p) as [v|]; cbv zeta;
    [destruct (Nat.ltb 0 _)|]; cbn; intros Hc;
    repeat (apply elem_of_cons in Hc as [->|Hc]; [done|]);
    by apply elem_of_nil in Hc.
Qed.

(** A submit attempt always calls something. *)
Lemma handleSubmit_calls_nonempty p vals st :
  calls (handleSubmit p vals) st ≠ [].
Proof.
  unfold calls. rewrite handleSubmit_run.
  destruct (validate p) as [v|]; cbv zeta; [|done].
  by destruct (Nat.ltb 0 _).
Qed.

Lemma ltb_size_empty {V} (m : gmap string V) :
  Nat.ltb 0 (size m) = false ↔ m = ∅.
Proof.
  rewrite Nat.ltb_ge, <-map_size_empty_iff. lia.
Qed.

(** C1: with a validator [v], a submit attempt calls [v] on the visible
    values, first and once, and replaces the error state by what [v] returns
    (by the empty map when it returns [null]); if that map is not empty the
    submission handler is not called and nothing becomes pending; if it is
    empty the handler is called, after the validator, on the same visible
    values. *)
Theorem handleSubmit_validation_gate (p : Props)
    (v : gmap string JS.value → option (gmap string string))
    (st : FormState) :
  validate p = Some v →
  let data := visibleValues (fields p) (formValues st) in
  let nextErrors := default ∅ (v data) in
  let run := handleSubmit p (formValues st) in
  errors (exec run st) = nextErrors ∧
  formValues (exec run st) = formValues st ∧
  (v data = None → errors (exec run st) = ∅) ∧
  (nextErrors ≠ ∅ →
     calls run st = [call_validate data] ∧
     (∀ c, c ∈ calls run st → is_onSubmit c = false) ∧
     inflight (exec run st) = inflight st) ∧
  (nextErrors = ∅ →
     calls run st = [call_validate data; call_onSubmit data]).
Proof.
  intros Hv data nextErrors run. unfold run, exec, calls.
  rewrite handleSubmit_run, Hv. fold data. cbv zeta. fold nextErrors.
  destruct (Nat.ltb 0 (size nextErrors)) eqn:E; cbn.
  - repeat split; try done.
    + intros Hnone. unfold nextErrors. by rewrite Hnone.
    + intros c Hc. apply list_elem_of_singleton in Hc as ->. done.
    + intros Hempty. rewrite Hempty in E. done.
  - apply ltb_size_empty in E. repeat split; try done.
Qed.

Lemma handleSubmit_validation_gate_witness :
  errors (exec (handleSubmit sample_props (formValues sample_state)) sample_state)
  = ∅.
Proof.
  destruct (handleSubmit_validation_gate sample_props sample_validate
              sample_state eq_refl) as (_ & _ & H & _).
  apply H. reflexivity.
Defined.

(** ** The submitted payload *)



(** C10: merging changed initial values puts every entry of theirs into the
    value map, whether or not a field has that name; all the same, every key
    of a payload a submit attempt hands to the validator or to the
    submission handler is the name of a field of the schema. *)
Theorem payload_keys_in_schema (p : Props) (st : FormState)
    (iv : gmap string JS.value) :
  let st' := exec (syncInitialValues iv) st in
  (∀ k v, iv !! k = Some v → formValues st' !! k = Some v) ∧
  (∀ c k, c ∈ calls (handleSubmit p (formValues st')) st' →
          is_Some (call_data c !! k) → k ∈ names (fields p)).
Proof.
  intros st'. split.
  - intros k v Hk. unfold st'. rewrite exec_syncInitialValues.
    by apply lookup_union_Some_l.
  - intros c k Hc Hk.
    rewrite (handleSubmit_payload _ _ _ _ Hc), visibleValues_assign in Hk.
    apply assign_each_keys in Hk as [Hk|Hk]; [|done].
    rewrite lookup_empty in Hk. by destruct Hk.
Qed.

(** ** Completion and reset *)






(** ** One submission at a time *)

Lemma isPending_spec (st : FormState) :
  isPending st = true ↔ inflight st ≠ [].
Proof. unfold isPending. by destruct (inflight st). Qed.









(** ** The scenarios of the specification, run *)

Example scenario_links :
  isActive (Some "/login") "/login" true = true ∧
  isActive (Some "/login/reset") "/login" true = false ∧
  isActive (Some "/login/reset") "/login" false = true ∧
  isActive (Some "/") "/login" false = false ∧
  isActive None "/" false = false.
Proof. by repeat split. Qed.

(** A text field [name] and an untouched checkbox [subscribe]. *)
Example scenario_payload :
  visibleValues [f_name; f_subscribe]
    (<["name" := JS.Str "Ada"]>
       (initialComputed [f_name; f_subscribe] ∅))
  = <["name" := JS.Str "Ada"]> {[ "subscribe" := JS.Bool false ]}.
Proof. by vm_compute. Qed.

(** [plan] is left out while [subscribe] is false, whatever it holds. *)
Example scenario_hidden_plan :
  visibleValues sample_fields sample_values
  = <["name" := JS.Str "Ada"]> {[ "subscribe" := JS.Bool false ]}.
Proof. by vm_compute. Qed.

(** A failing validation keeps the handler from being called. *)
Example scenario_validation_fails :
  let st := {| formValues := initialComputed sample_fields ∅; errors := ∅;
               inflight := [] |} in
  calls (handleSubmit sample_props (formValues st)) st
  = [call_validate (<["name" := JS.Str ""]> {[ "subscribe" := JS.Bool false ]})] ∧
  errors (exec (handleSubmit sample_props (formValues st)) st)
  = {[ "name" := "Name is required" ]}.
Proof. by vm_compute. Qed.

(** Clearing a number input keeps the empty string. *)
Example scenario_number_cleared :
  coerce (HTMLInputElement "number" "age" "" false JS.NaN) = JS.Str "" ∧
  coerce (HTMLInputElement "number" "age" "42" false (JS.Finite 42 0))
  = JS.Num (JS.Finite 42 0).
Proof. by split. Qed.

(** Merged initial values may name no field; the payload ignores them. *)
Example scenario_foreign_key :
  let st := exec (syncInitialValues {[ "ghost" := JS.Str "boo" ]}) sample_state in
  formValues st !! "ghost" = Some (JS.Str "boo") ∧
  visibleValues sample_fields (formValues st) !! "ghost" = None.
Proof. by vm_compute. Qed.

(** Two fields under one name: the later one decides the seed, which is why
    the properties above ask for unique names. *)
Example duplicate_names_last_wins :
  initialComputed [CheckboxField (mkBase "a" "A" None);
                   TextField text (mkBase "a" "A" None) None] ∅ !! "a"
  = Some (JS.Str "").
Proof. by vm_compute. Qed.

(** * Further properties of the builder *)

(** ** More on the schema loops *)








(** ** The two effects *)

(** X1: the effect on [initialValues] keeps the value of every key the new
    initial values do not mention, and leaves errors and pending submissions
    alone; with no initial values it changes nothing, and running it twice
    is running it once. *)
Theorem syncInitialValues_merge (iv : gmap string JS.value) (st : FormState) :
  let st' := exec (syncInitialValues iv) st in
  (∀ k : string, iv !! k = None → formValues st' !! k = formValues st !! k) ∧
  errors st' = errors st ∧
  inflight st' = inflight st ∧
  (iv = ∅ → st' = st) ∧
  exec (syncInitialValues iv) st' = st'.
Proof.
  intros st'.
  assert (∀ s, exec (syncInitialValues iv) s
               = if negb (Nat.eqb (size iv) 0)
                 then {| formValues := iv ∪ formValues s; errors := errors s;
                         inflight := inflight s |}
                 else s) as Hrun.
  { intros s. unfold syncInitialValues, JS.keys_length.
    by destruct (negb (Nat.eqb (size iv) 0)). }
  unfold st'. rewrite !Hrun.
  destruct (negb (Nat.eqb (size iv) 0)) eqn:E; cbn.
  - split; [|split; [done|split; [done|split]]].
    + intros k Hk. rewrite lookup_union, Hk. by destruct (formValues st !! k).
    + intros ->. by rewrite map_size_empty in E.
    + f_equal. rewrite (assoc_L (∪)). by rewrite (idemp_L (∪)).
  - by repeat split.
Qed.


(** ** Reset *)





(** ** Every field has a value *)






(** ** Field changes compose *)

(** X6: of two changes to one field only the later one counts, and changes
    to different fields can be applied in either order. *)
Theorem handleFieldChange_compose (a1 a2 : ChangeArg) (st : FormState) :
  (arg_name a1 = arg_name a2 →
     exec (handleFieldChange a2) (exec (handleFieldChange a1) st)
     = exec (handleFieldChange a2) st) ∧
  (arg_name a1 ≠ arg_name a2 →
     exec (handleFieldChange a2) (exec (handleFieldChange a1) st)
     = exec (handleFieldChange a1) (exec (handleFieldChange a2) st)).
Proof.
  rewrite !exec_handleFieldChange. cbn. split.
  - intros ->. by rewrite !insert_insert_eq.
  - intros Hne. f_equal; by apply insert_insert_ne.
Qed.

(** ** Submitting without a validator *)

(** X7: without a validator a submit attempt always reaches the submission
    handler, once, with the visible values; values and errors (stale ones
    included) stay as they are, and one more submission is pending. *)
Theorem handleSubmit_without_validator (p : Props) (st : FormState) :
  validate p = None →
  let run := handleSubmit p (formValues st) in
  calls run st = [call_onSubmit (visibleValues (fields p) (formValues st))] ∧
  formValues (exec run st) = formValues st ∧
  errors (exec run st) = errors st ∧
  inflight (exec run st)
  = (inflight st ++ [{| k_resetOnSubmit := resetOnSubmit p;
                        k_fields := fields p |}])%list.
Proof.
  intros Hv run. unfold run, calls, exec. by rewrite handleSubmit_run, Hv.
Qed.

Lemma handleSubmit_without_validator_witness :
  errors (exec (handleSubmit
                  {| fields := sample_fields; initialValues := ∅;
                     loading := false; resetOnSubmit := false;
                     validate := None |}
                  sample_values)
               {| formValues := sample_values;
                  errors := {[ "name" := "Name is required" ]};
                  inflight := [] |})
  = {[ "name" := "Name is required" ]}.
Proof.
  destruct (handleSubmit_without_validator
              {| fields := sample_fields; initialValues := ∅;
                 loading := false; resetOnSubmit := false; validate := None |}
              {| formValues := sample_values;
                 errors := {[ "name" := "Name is required" ]};
                 inflight := [] |} eq_refl) as (_ & _ & H & _).
  exact H.
Defined.

(** ** The render *)

Lemma isVisible_visible f vals : isVisible f vals = visible f vals.
Proof. done. Qed.

Lemma renderField_Some p st (f : FormField) v :
  renderField p st f = Some v →
  visible f (formValues st) = true ∧ view_key v = name f ∧
  view_htmlFor v = control_id f ∧
  control_dom_id (view_control v) = control_id f ∧
  control_name (view_control v) = name f.
Proof.
  unfold renderField. rewrite isVisible_visible.
  destruct (visible f (formValues st)); [|done].
  intros [= <-]. by destruct f as [[] ? ?| | | |].
Qed.






(** X9: every rendered control, whatever its variant, is disabled exactly
    when its field says so or the submit button is disabled; and the button
    is disabled, and reads "Submitting…", exactly while the form is loading
    or a submission is pending. *)
Theorem disabled_together (p : Props) (st : FormState) (txt : string) :
  let button := renderButton p st txt in
  (∀ (f : FormField) v, renderField p st f = Some v →
     control_disabled (view_control v)
     = default false (disabled f) || button_disabled button) ∧
  (button_disabled button = true ↔ loading p = true ∨ inflight st ≠ []) ∧
  (button_disabled button = true → button_text button = "Submitting…") ∧
  (button_disabled button = false → button_text button = txt).
Proof.
  intros button. split; [|split; [|split]].
  - intros f v. unfold renderField.
    destruct (negb _); [done|]. intros [= <-].
    destruct f as [[] ? ?| | | |]; cbn; by rewrite ?orb_assoc.
  - cbn. rewrite orb_true_iff, isPending_spec. done.
  - cbn. by intros ->.
  - cbn. by intros ->.
Qed.

Lemma from_control_name c t : from_control c t → target_name t = control_name c.
Proof. destruct c, t; cbn; try done; by intros [_ ->]. Qed.

Lemma showsError_truthy st k : showsError st k = truthy_opt (errors st !! k).
Proof. done. Qed.

(** The paragraphs and the common props of a rendered field, spelled out. *)
Lemma renderField_paragraphs p st (f : FormField) v :
  renderField p st f = Some v →
  view_error v
  = (if showsError st (name f)
     then Some (control_id f +:+ "-error", default "" (errors st !! name f))
     else None) ∧
  view_description v
  = (if truthy_opt (description f)
     then Some (control_id f +:+ "-desc", default "" (description f))
     else None).
Proof.
  unfold renderField. destruct (negb _); [done|]. by intros [= <-].
Qed.

Lemma renderField_common p st (f : FormField) v cp :
  renderField p st f = Some v →
  control_common (view_control v) = Some cp →
  cp_aria_invalid cp = (if showsError st (name f) then Some true else None) ∧
  cp_aria_describedby cp
  = (if showsError st (name f) then Some (control_id f +:+ "-error")
     else if truthy_opt (description f) then Some (control_id f +:+ "-desc")
     else None).
Proof.
  unfold renderField. destruct (negb _); [done|]. intros [= <-].
  destruct f as [[] ? ?| | | |]; cbn; try done; by intros [= <-].
Qed.

Lemma renderField_no_common p st (f : FormField) v :
  renderField p st f = Some v →
  control_common (view_control v) = None
  ↔ type f = t_checkbox ∨ type f = t_multiselect.
Proof.
  unfold renderField. destruct (negb _); [done|]. intros [= <-].
  destruct f as [[] ? ?| | | |]; cbn; split; try done;
    try (by left); try (by right); by intros [?|?].
Qed.

(** X10: in a rendered field the error paragraph is there exactly when the
    field's error message is non-empty.  A control that takes the common
    props is marked invalid exactly then, and is described by the error
    paragraph if there is one, else by the description paragraph if there is
    one, else by nothing: it never refers to a paragraph that is not
    rendered.  The checkbox and the multiselect do not take the common props,
    so they carry neither mark. *)
Theorem aria_follows_paragraphs (p : Props) (st : FormState) (f : FormField)
    (v : FieldView) :
  renderField p st f = Some v →
  (is_Some (view_error v) ↔ showsError st (name f) = true) ∧
  (fst <$> view_error v
   = if showsError st (name f) then Some (control_id f +:+ "-error") else None) ∧
  (fst <$> view_description v
   = if truthy_opt (description f) then Some (control_id f +:+ "-desc")
     else None) ∧
  (∀ cp, control_common (view_control v) = Some cp →
     (cp_aria_invalid cp = Some true ↔ is_Some (view_error v)) ∧
     cp_aria_describedby cp
     = match view_error v, view_description v with
       | Some (i, _), _ => Some i
       | None, Some (i, _) => Some i
       | None, None => None
       end) ∧
  (control_common (view_control v) = None
   ↔ type f = t_checkbox ∨ type f = t_multiselect).
Proof.
  intros Hr.
  destruct (renderField_paragraphs _ _ _ _ Hr) as [Herr Hdesc].
  split; [|split; [|split; [|split]]].
  - rewrite Herr. destruct (showsError st (name f)).
    + split; [done|]. by eexists.
    + split; [by intros [? ?]|done].
  - rewrite Herr. by destruct (showsError st (name f)).
  - rewrite Hdesc. by destruct (truthy_opt (description f)).
  - intros cp Hcp.
    destruct (renderField_common _ _ _ _ _ Hr Hcp) as [-> ->].
    rewrite Herr, Hdesc.
    destruct (showsError st (name f)), (truthy_opt (description f)); cbn.
    + split; [|done]. split; [done|]. by eexists.
    + split; [|done]. split; [done|]. by eexists.
    + split; [|done]. split; [done|]. by intros [? ?].
    + split; [|done]. split; [done|]. by intros [? ?].
  - by apply (renderField_no_common p st).
Qed.

Lemma aria_follows_paragraphs_witness :
  ∃ v, renderField sample_props
         {| formValues := sample_values;
            errors := {[ "name" := "Name is required" ]}; inflight := [] |}
         f_name = Some v ∧
       fst <$> view_error v = Some "field_name-error".
Proof.
  eexists. split; [reflexivity|].
  destruct (aria_follows_paragraphs sample_props
              {| formValues := sample_values;
                 errors := {[ "name" := "Name is required" ]};
                 inflight := [] |} f_name _ eq_refl) as (_ & H & _).
  exact H.
Defined.

(** ** From a control to the state and back *)

(** The value a rendered control shows, by variant. *)
Lemma renderField_value p st (f : FormField) v :
  renderField p st f = Some v →
  control_value (view_control v)
  = match type f with
    | t_checkbox => JS.Bool (truthy (JS.get (formValues st) (name f)))
    | t_multiselect =>
        if truthy (JS.get (formValues st) (name f))
        then JS.get (formValues st) (name f) else JS.Arr []
    | _ => JS.get (formValues st) (name f)
    end.
Proof.
  unfold renderField. destruct (negb _); [done|]. intros [= <-].
  by destruct f as [[] ? ?| | | |].
Qed.

(** What the change event of a rendered control is coerced to, by variant. *)
Lemma coerce_from_control p st (f : FormField) v t :
  renderField p st f = Some v → from_control (view_control v) t →
  match type f with
  | t_checkbox => ∃ b, coerce t = JS.Bool b
  | t_multiselect => ∃ l : list string, coerce t = JS.Arr (map JS.Str l)
  | t_number =>
      (target_value t = "" ∧ coerce t = JS.Str "") ∨
      (target_value t ≠ "" ∧ ∃ n, coerce t = JS.Num n)
  | _ => coerce t = JS.Str (target_value t)
  end.
Proof.
  unfold renderField. destruct (negb _); [done|]. intros [= <-].
  destruct f as [[] ? ?| | | |], t as [ty n s c num|n s|n s [] sel];
    cbn; try done.
  all: intros [H _]; try discriminate H; try subst ty; cbn; try done.
  - destruct s; [left|right]; split; try done. by eexists.
  - by eexists.
  - by eexists.
Qed.

(** X11: a change event fired on a rendered control comes back: at the next
    render, if the field is still shown, its control shows the value the
    event was coerced to, and the field's error paragraph is gone. *)
Theorem change_shows_back (p : Props) (st : FormState) (f : FormField)
    (v v' : FieldView) (t : Target) :
  renderField p st f = Some v →
  from_control (view_control v) t →
  renderField p (exec (handleFieldChange (ChangeEvent t)) st) f = Some v' →
  control_value (view_control v') = coerce t ∧ view_error v' = None.
Proof.
  intros Hr Ht Hr'.
  pose proof (coerce_from_control _ _ _ _ _ Hr Ht) as Hshape.
  assert (target_name t = name f) as Hn.
  { rewrite (from_control_name _ _ Ht).
    by apply renderField_Some in Hr as (_ & _ & _ & _ & ->). }
  split.
  - rewrite (renderField_value _ _ _ _ Hr'), exec_handleFieldChange.
    cbn. rewrite Hn. unfold JS.get. rewrite lookup_insert_eq. cbn.
    destruct (type f); try done.
    + by destruct Hshape as [b ->].
    + by destruct Hshape as [l ->].
  - destruct (renderField_paragraphs _ _ _ _ Hr') as [-> _].
    rewrite showsError_truthy, exec_handleFieldChange. cbn.
    by rewrite Hn, lookup_insert_eq.
Qed.

Lemma change_shows_back_witness :
  ∃ v', renderField sample_props
          (exec (handleFieldChange
                   (ChangeEvent (HTMLInputElement "checkbox" "subscribe" "on"
                                   true JS.NaN)))
                sample_state)
          f_subscribe = Some v' ∧
        control_value (view_control v') = JS.Bool true.
Proof.
  eexists. split; [reflexivity|].
  refine (proj1 (change_shows_back sample_props sample_state f_subscribe _ _
                   (HTMLInputElement "checkbox" "subscribe" "on" true JS.NaN)
                   eq_refl _ eq_refl)).
  by split.
Defined.

(** X12: the values a variant's control produces have the variant's kind,
    and so has the variant's default: a boolean for a checkbox, an array of
    strings for a multiselect, the empty string or a number for a number
    input, a string for the others.  The event names the field it edits. *)
Theorem control_values_have_shape (p : Props) (st : FormState)
    (f : FormField) (v : FieldView) (t : Target) :
  renderField p st f = Some v →
  from_control (view_control v) t →
  has_shape f (coerce t) ∧ has_shape f (defaultFor f) ∧ target_name t = name f.
Proof.
  intros Hr Ht.
  pose proof (coerce_from_control _ _ _ _ _ Hr Ht) as Hshape.
  split; [|split].
  - unfold has_shape. destruct (type f); try done; try by eexists.
    destruct Hshape as [[_ ->]|[_ H]]; [by left|by right].
  - unfold has_shape, defaultFor.
    destruct (type f); try (by eexists); [by left|by exists []].
  - rewrite (from_control_name _ _ Ht).
    by apply renderField_Some in Hr as (_ & _ & _ & _ & ->).
Qed.

Lemma control_values_have_shape_witness :
  has_shape f_plan
    (coerce (HTMLSelectElement "plan" "pro" false ["pro"])).
Proof.
  refine (proj1 (control_values_have_shape sample_props
                   {| formValues := {[ "subscribe" := JS.Bool true ]};
                      errors := ∅; inflight := [] |}
                   f_plan _ (HTMLSelectElement "plan" "pro" false ["pro"])
                   eq_refl _)).
  by split.
Defined.

(** ** Ids and keys *)

Lemma NoDup_omap_fmap {A B C} (r : A → option B) (h : B → C) (g : A → C)
    (l : list A) :
  (∀ a b, r a = Some b → h b = g a) →
  NoDup (g <$> l) → NoDup (h <$> omap r l).
Proof.
  intros Hr. induction l as [|a l IH]; intros Hnd; [constructor|].
  cbn in Hnd. apply NoDup_cons in Hnd as [Ha Hnd]. cbn.
  destruct (r a) as [b|] eqn:E; [|by apply IH].
  cbn. apply NoDup_cons. split; [|by apply IH].
  intros Hb. apply Ha.
  apply list_elem_of_fmap in Hb as (b' & Hbb & Hb').
  apply list_elem_of_omap in Hb' as (a' & Ha' & Hra').
  apply list_elem_of_fmap. exists a'. split; [|done].
  by rewrite <-(Hr _ _ E), Hbb, (Hr _ _ Hra').
Qed.

(** X13: with unique field names the keys of the rendered list are unique;
    if, moreover, no field overrides its id, the ids of the rendered controls
    are unique too.  Every label points at the control of its field. *)
Theorem rendered_ids_unique (p : Props) (st : FormState) :
  NoDup (names (fields p)) →
  NoDup (view_key <$> renderFields p st) ∧
  ((∀ f : FormField, f ∈ fields p → id f = None) →
   NoDup ((λ v, control_dom_id (view_control v)) <$> renderFields p st)) ∧
  (∀ v, v ∈ renderFields p st →
        view_htmlFor v = control_dom_id (view_control v)).
Proof.
  intros Hnd. split; [|split].
  - apply (NoDup_omap_fmap _ _ (λ f : FormField, name f)); [|done].
    intros f v Hv. by apply renderField_Some in Hv as (_ & -> & _).
  - intros Hid.
    apply (NoDup_omap_fmap _ _ (λ f : FormField, control_id f)).
    { intros f v Hv. by apply renderField_Some in Hv as (_ & _ & _ & -> & _). }
    assert ((λ f : FormField, control_id f) <$> fields p
            = (λ s, "field_" +:+ s) <$> names (fields p)) as ->.
    { unfold names. rewrite <-list_fmap_compose.
      apply list_fmap_ext. intros i f Hf. unfold control_id. cbn.
      by rewrite (Hid f (list_elem_of_lookup_2 _ _ _ Hf)). }
    apply NoDup_fmap_2; [|done]. intros s1 s2 H. by injection H.
  - intros v Hv. apply list_elem_of_omap in Hv as (f & _ & Hr).
    apply renderField_Some in Hr as (_ & _ & -> & -> & _). done.
Qed.

Lemma rendered_ids_unique_witness :
  NoDup (view_key <$> renderFields sample_props sample_state).
Proof.
  apply (rendered_ids_unique sample_props sample_state).
  by compute_done.
Defined.

(** * Further properties of the navigation *)

Lemma append_assoc (a b c : string) : (a +:+ b) +:+ c = a +:+ (b +:+ c).
Proof.
  induction a as [|x a IH]; [done|].
  change (String x ((a +:+ b) +:+ c) = String x (a +:+ (b +:+ c))).
  by f_equal.
Qed.

Lemma append_empty_r (a : string) : a +:+ "" = a.
Proof.
  induction a as [|x a IH]; [done|].
  change (String x (a +:+ "") = String x a). by f_equal.
Qed.

Lemma startsWith_trans (s t u : string) :
  JS.startsWith s t = true → JS.startsWith t u = true →
  JS.startsWith s u = true.
Proof.
  rewrite !startsWith_spec. intros [r ->] [r' ->].
  exists (r' +:+ r). apply append_assoc.
Qed.

Lemma startsWith_refl (s : string) : JS.startsWith s s = true.
Proof. apply startsWith_spec. exists "". by rewrite append_empty_r. Qed.

Lemma isActive_Some pathname href exact :
  isActive pathname href exact = true →
  ∃ p, pathname = Some p ∧ p ≠ "" ∧
       (if exact then p = href else JS.startsWith p href = true).
Proof.
  destruct pathname as [[|c p]|]; cbn; try done.
  intros H. eexists. split; [done|]. split; [done|].
  destruct exact; [|done]. by apply String.eqb_eq.
Qed.

(** X14: how the two modes relate.  A link that is active in exact mode is
    active in prefix mode; in prefix mode, a link to a prefix of an active
    link's target is active as well, so a link to the empty target is active
    on every non-empty path; and an active link's target is never longer
    than the current path. *)
Theorem isActive_modes (pathname : option string) (href href' : string)
    (exact : bool) :
  (isActive pathname href true = true → isActive pathname href false = true) ∧
  (isActive pathname href false = true → JS.startsWith href href' = true →
     isActive pathname href' false = true) ∧
  (isActive pathname "" false = true ↔ ∃ p, pathname = Some p ∧ p ≠ "") ∧
  (isActive pathname href exact = true →
     ∃ p, pathname = Some p ∧
          (String.length href ≤ String.length p)%nat).
Proof.
  split; [|split; [|split]].
  - intros H. apply isActive_Some in H as (p & -> & Hp & ->).
    destruct href as [|c s]; [done|].
    change (JS.startsWith (String c s) (String c s) = true).
    apply startsWith_refl.
  - intros H Hpre. apply isActive_Some in H as (p & -> & Hp & H).
    destruct p as [|c s]; [done|].
    change (JS.startsWith (String c s) href' = true).
    by apply (startsWith_trans _ href).
  - split.
    + intros H. apply isActive_Some in H as (p & -> & Hp & _). by exists p.
    + intros (p & -> & Hp). by destruct p.
  - intros H. apply isActive_Some in H as (p & -> & Hp & H).
    exists p. split; [done|].
    assert (JS.startsWith p href = true) as Hpre.
    { destruct exact; [subst; apply startsWith_refl|done]. }
    apply startsWith_spec in Hpre as [r ->].
    clear. induction href as [|c s IH]; [cbn; lia|].
    change (S (String.length s) ≤ S (String.length (s +:+ r)))%nat. lia.
Qed.

Lemma clsx_pair (a b : option string) :
  clsx [a; b]
  = if truthy_opt a && truthy_opt b
    then default "" a +:+ " " +:+ default "" b
    else default "" a +:+ default "" b.
Proof.
  destruct a as [[|c s]|], b as [[|d t]|]; cbn; try done;
    by rewrite ?append_empty_r.
Qed.

(** X15: the link an [ActiveLink] renders goes to its [href].  While it is
    not active its class is its [className] alone (empty if there is none);
    while it is active the class is [className] and [activeClassName],
    separated by one space when both are non-empty. *)
Theorem ActiveLink_className (pathname : option string) (href : string)
    (exact : bool) (className activeClassName : option string) :
  let link := ActiveLink pathname href exact className activeClassName in
  link_href link = href ∧
  (isActive pathname href exact = false →
     link_className link = default "" className) ∧
  (isActive pathname href exact = true →
     link_className link
     = if truthy_opt className && truthy_opt activeClassName
       then default "" className +:+ " " +:+ default "" activeClassName
       else default "" className +:+ default "" activeClassName).
Proof.
  intros link. unfold link, ActiveLink. cbn [link_href link_className].
  split; [done|]. split; intros ->; rewrite clsx_pair.
  - cbn. rewrite andb_false_r. apply append_empty_r.
  - done.
Qed.

(** X16: the navigation bar renders one link per item, in order, each in
    exact mode.  For any current path at most one item is active, and an
    item is active exactly when the current path is its target (so Home is
    not active on /login).  No class is passed to the links, so their class
    is empty on every path, active or not. *)
Theorem NavBar_links (pathname : option string) :
  link_href <$> NavBar pathname = nav_href <$> NAV_ITEMS ∧
  (∀ item, item ∈ NAV_ITEMS →
     isActive pathname (nav_href item) true = true
     ↔ pathname = Some (nav_href item)) ∧
  (∀ item item', item ∈ NAV_ITEMS → item' ∈ NAV_ITEMS →
     isActive pathname (nav_href item) true = true →
     isActive pathname (nav_href item') true = true →
     item = item') ∧
  (∀ link, link ∈ NavBar pathname → link_className link = "").
Proof.
  assert (∀ item, item ∈ NAV_ITEMS →
            isActive pathname (nav_href item) true = true
            ↔ pathname = Some (nav_href item)) as Hiff.
  { intros item Hitem. split.
    - intros H. by apply isActive_Some in H as (p & -> & _ & ->).
    - intros ->. unfold NAV_ITEMS in Hitem.
      repeat (apply elem_of_cons in Hitem as [->|Hitem]; [done|]).
      by apply elem_of_nil in Hitem. }
  split; [done|]. split; [done|]. split.
  - intros item item' Hi Hi' H H'.
    apply Hiff in H, H'; try done. rewrite H in H'. injection H' as Heq.
    unfold NAV_ITEMS in Hi, Hi'.
    repeat (apply elem_of_cons in Hi as [->|Hi]);
      repeat (apply elem_of_cons in Hi' as [->|Hi']);
      try done; by apply elem_of_nil in Hi || by apply elem_of_nil in Hi'.
  - intros link Hlink. unfold NavBar in Hlink.
    apply list_elem_of_fmap in Hlink as (item & -> & _).
    unfold ActiveLink. cbn [link_className]. rewrite clsx_pair.
    by destruct (isActive _ _ _).
Qed.

(** ** Further scenarios *)

(** A schema change while a submission is pending: the reset that follows
    rebuilds the value map from the schema that was submitted, and the field
    added since is left without a value. *)
Example stale_reset_drops_new_field :
  let p := {| fields := [f_name]; initialValues := ∅; loading := false;
              resetOnSubmit := true; validate := None |} in
  let c1 := {| props := p;
               hooks := exec (handleSubmit p (formValues (hooks (mount p))))
                             (hooks (mount p)) |} in
  let c2 := {| props := with_fields p [f_name; f_subscribe];
               hooks := exec (setFormValues (syncFields [f_name; f_subscribe]))
                             (hooks c1) |} in
  let c3 := {| props := props c2; hooks := exec (settle 0 true) (hooks c2) |} in
  step (mount p) [call_onSubmit {[ "name" := JS.Str "" ]}] c1 ∧
  step c1 [] c2 ∧ step c2 [] c3 ∧
  formValues (hooks c2) !! "subscribe" = Some (JS.Bool false) ∧
  formValues (hooks c3) !! "subscribe" = None.
Proof.
  intros p c1 c2 c3. split; [|split; [|split; [|split]]].
  - apply (step_submit (mount p)). reflexivity.
  - apply (step_fields c1).
  - apply (step_settle c2 0 true). vm_compute. lia.
  - by vm_compute.
  - by vm_compute.
Qed.

(** ** Mount and completion, in general *)



